(** * AES-256-GCM encryption driver: envelope format and validation order

    A shallow embedding of the [AES256GCM] driver (its constructor,
    [encrypt] and [decrypt]).  The driver is written against a platform:
    Node's [crypto] module, [Buffer], the [MessageBuilder] codec of
    [@poppinss/utils], and the [BaseDriver] and [Hmac] classes it extends
    and calls.  [Buffer]'s hex encoding and [String.prototype.split] are
    modelled concretely; the cryptographic primitives and the codec are
    fields of a [Platform] record, and every law a theorem relies on is a
    named hypothesis of that theorem. *)

From Stdlib Require Import Bool List Arith NArith ZArith Lia.
From Stdlib.Strings Require Import Ascii String Byte.
Import ListNotations.

Open Scope list_scope.
Open Scope string_scope.

(** ** JavaScript values *)

(** The values that flow through the driver: [encrypt]'s payload,
    [decrypt]'s argument and result, and the configured id.  Numbers are
    carried, never inspected, by the driver; integers stand for them. *)
#[warnings="-register-all"]
Inductive JsValue : Type :=
| JUndefined
| JNull
| JBool (b : bool)
| JNumber (n : Z)
| JString (s : string)
| JDate (epoch_ms : Z)
| JArray (items : list JsValue)
| JObject (entries : list (string * JsValue)).

(** [typeof v === 'string'] *)
Definition typeof_string (v : JsValue) : bool :=
  match v with JString _ => true | _ => false end.

(** A call either returns or throws. *)
Inductive Outcome (A : Type) : Type :=
| Returns (a : A)
| Throws.
Arguments Returns {A} a.
Arguments Throws {A}.

(** [try { body } catch { return fallback }] *)
Definition try_catch {A} (body : Outcome A) (fallback : A) : Outcome A :=
  match body with
  | Returns a => Returns a
  | Throws => Returns fallback
  end.

Definition bytes := list byte.

(** ** Strings: truthiness, [split], [join] *)

Module Str.

(** [!s] for a string: only the empty string is falsy. *)
Definition falsy (s : string) : bool :=
  match s with EmptyString => true | String _ _ => false end.

(** [if (purpose)] for an optional string argument: [undefined] and the
    empty string are both falsy. *)
Definition truthy_opt (o : option string) : bool :=
  match o with
  | Some s => negb (falsy s)
  | None => false
  end.

(** Objects, so also every [Buffer], are truthy, whatever they hold. *)
Definition truthy_object {A} (_ : A) : bool := true.

Fixpoint contains (c : ascii) (s : string) : bool :=
  match s with
  | EmptyString => false
  | String a r => Ascii.eqb a c || contains c r
  end.

(** [s.split(sep)] for a one-character separator. *)
Fixpoint split (sep : ascii) (s : string) : list string :=
  match s with
  | EmptyString => [EmptyString]
  | String a r =>
      if Ascii.eqb a sep then EmptyString :: split sep r
      else match split sep r with
           | h :: t => String a h :: t
           | [] => [String a EmptyString]
           end
  end.

(** [values.join(sep)] *)
Fixpoint join (sep : ascii) (values : list string) : string :=
  match values with
  | [] => EmptyString
  | [v] => v
  | v :: rest => v ++ String sep (join sep rest)
  end.

End Str.

(** ** [Buffer]: hex encoding and decoding *)

Module Hex.

Definition digit (n : N) : ascii :=
  match n with
  | 0 => "0" | 1 => "1" | 2 => "2" | 3 => "3" | 4 => "4"
  | 5 => "5" | 6 => "6" | 7 => "7" | 8 => "8" | 9 => "9"
  | 10 => "a" | 11 => "b" | 12 => "c" | 13 => "d" | 14 => "e"
  | _ => "f"
  end%N%char.

(** The value of a hex digit, either case; [None] for any other
    character. *)
Definition value (c : ascii) : option N :=
  let n := N_of_ascii c in
  (if (48 <=? n) && (n <=? 57) then Some (n - 48)
   else if (97 <=? n) && (n <=? 102) then Some (n - 87)
   else if (65 <=? n) && (n <=? 70) then Some (n - 55)
   else None)%N.

Definition is_digit (c : ascii) : bool :=
  match value c with Some _ => true | None => false end.

(** [buf.toString('hex')]: two lower-case digits per byte. *)
Fixpoint encode (b : bytes) : string :=
  match b with
  | [] => EmptyString
  | x :: r =>
      let n := Byte.to_N x in
      String (digit (n / 16)%N) (String (digit (n mod 16)%N) (encode r))
  end.

(** [Buffer.from(s, 'hex')]: decodes pairs of digits and stops, without
    an error, at the first pair that is not two hex digits; an odd last
    character is dropped.  The result is always a [Buffer]. *)
Fixpoint decode (s : string) : bytes :=
  match s with
  | String a (String b r) =>
      match value a, value b with
      | Some hi, Some lo =>
          match Byte.of_N (hi * 16 + lo)%N with
          | Some x => x :: decode r
          | None => []
          end
      | _, _ => []
      end
  | _ => []
  end.

(** A string that is hex throughout: digits only, an even number. *)
Fixpoint well_formed (s : string) : bool :=
  match s with
  | EmptyString => true
  | String a (String b r) => is_digit a && is_digit b && well_formed r
  | String _ EmptyString => false
  end.

End Hex.

(** ** The platform the driver runs on *)

(** [expiresIn?: string | number] *)
Inductive Expiry : Type :=
| ExpiresInMs (n : Z)
| ExpiresInText (s : string).

(** What the driver imports.  [aead_seal key iv aad plaintext] stands for
    [createCipheriv('aes-256-gcm', key, iv)], an optional [setAAD],
    [update], [final] and [getAuthTag]: it yields the ciphertext and the
    auth tag.  [aead_open key iv aad tag ciphertext] stands for
    [createDecipheriv], an optional [setAAD], [setAuthTag], [update] and
    [final]: it yields the plaintext or throws.  An [aad] of [None] means
    [setAAD] was not called.  [mb_build now] and [mb_verify now] are
    [MessageBuilder]'s [build] and [verify], which read the clock. *)
Record Platform : Type := {
  min_secret_length : nat;
  kdf : string -> bytes;
  utf8_encode : string -> bytes;
  utf8_decode : bytes -> string;
  aead_seal : bytes -> bytes -> option bytes -> bytes -> bytes * bytes;
  aead_open : bytes -> bytes -> option bytes -> bytes -> bytes -> Outcome bytes;
  hmac_digest : bytes -> string -> string;
  mb_build : Z -> JsValue -> option Expiry -> Outcome string;
  mb_verify : Z -> string -> Outcome JsValue
}.

(** The bytes GCM authenticates as associated data: none when [setAAD]
    was not called. *)
Definition aad_bytes (aad : option bytes) : bytes :=
  match aad with Some a => a | None => [] end.

(** ** Configuration and construction *)

Record AES256GCMConfig : Type := {
  cfg_id : JsValue;
  cfg_secret : string;
  cfg_separator : option ascii
}.

Inductive ConfigError : Type :=
| E_INVALID_SECRET
| E_MISSING_ENCRYPTER_ID.

(** The fields of a constructed driver: [this.#config.id],
    [this.cryptoKey] and [this.separator]. *)
Record Driver : Type := {
  id : string;
  cryptoKey : bytes;
  separator : ascii
}.

Inductive Construction : Type :=
| Constructed (d : Driver)
| Failed (e : ConfigError).

Definition algorithm_tag : string := "aes256gcm".

(** What [decrypt] does that an observer of the platform can see, in
    order. *)
Inductive Event : Type :=
| HmacCompared (message hash : string) (valid : bool)
| DecipherAttempted (iv : bytes) (aad : option bytes) (tag ciphertext : bytes)
| MessageVerified (decrypted : string).

Definition is_decipher (e : Event) : bool :=
  match e with DecipherAttempted _ _ _ _ => true | _ => false end.

Section AES256GCM.

Variable P : Platform.

(** *** [Hmac] *)

(** Modelled from the spec: the [Hmac] class ([../hmac.js]).  [generate]
    is the keyed MAC of the message, as text. *)
Definition hmac_generate (key : bytes) (message : string) : string :=
  hmac_digest P key message.

(** Modelled from the spec: [Hmac.compare] recomputes the MAC and
    compares it with the candidate; it answers [false], and does not
    throw, on any mismatch. *)
Definition hmac_compare (key : bytes) (message candidate : string) : bool :=
  String.eqb (hmac_generate key message) candidate.

(** *** [BaseDriver] *)

(** Modelled from the spec: the [BaseDriver] constructor
    ([./base_driver.js]) rejects a secret that is empty or shorter than
    the minimum length, and derives the key from an accepted one. *)
Definition base_driver_key (secret : string) : Outcome bytes :=
  if Str.falsy secret || (String.length secret <? min_secret_length P)%nat
  then Throws
  else Returns (kdf P secret).

(** Modelled from the spec: the separator is a single character, ['.']
    unless configured. *)
Definition base_driver_separator (config : AES256GCMConfig) : ascii :=
  match cfg_separator config with
  | Some c => c
  | None => "."%char
  end.

(** Modelled from the spec: [BaseDriver.computeReturns] joins the
    values with the separator. *)
Definition computeReturns (d : Driver) (values : list string) : string :=
  Str.join (separator d) values.

(** *** The constructor *)

Definition construct (config : AES256GCMConfig) : Construction :=
  match base_driver_key (cfg_secret config) with
  | Throws => Failed E_INVALID_SECRET
  | Returns key =>
      match cfg_id config with
      | JString s =>
          Constructed {| id := s; cryptoKey := key;
                         separator := base_driver_separator config |}
      | _ => Failed E_MISSING_ENCRYPTER_ID
      end
  end.

(** *** [encrypt] *)

(** [if (purpose) cipher.setAAD(Buffer.from(purpose), ...)] *)
Definition purpose_aad (purpose : option string) : option bytes :=
  match purpose with
  | Some p => if Str.truthy_opt purpose then Some (utf8_encode P p) else None
  | None => None
  end.

(** [encrypt(payload, expiresIn, purpose)].  [iv] is what
    [randomBytes(16)] returned for this call, and [now] the clock. *)
Definition encrypt (d : Driver) (now : Z) (iv : bytes) (payload : JsValue)
    (expiresIn : option Expiry) (purpose : option string) : Outcome string :=
  let aad := purpose_aad purpose in
  match mb_build P now payload expiresIn with
  | Throws => Throws
  | Returns encodedValue =>
      let '(encrypted, tag) :=
        aead_seal P (cryptoKey d) iv aad (utf8_encode P encodedValue) in
      let result :=
        Hex.encode encrypted ++ String (separator d) (Hex.encode iv) in
      let nounce := Hex.encode tag in
      let hmac := hmac_generate (cryptoKey d) result in
      Returns (computeReturns d [id d; algorithm_tag; result; nounce; hmac])
  end.

(** *** [decrypt] *)

(** The [try] block of [decrypt]. *)
Definition decipher_and_verify (d : Driver) (now : Z)
    (encrypted iv nounce : bytes) (purpose : option string)
    : list Event * Outcome JsValue :=
  let aad := purpose_aad purpose in
  match aead_open P (cryptoKey d) iv aad nounce encrypted with
  | Throws => ([DecipherAttempted iv aad nounce encrypted], Throws)
  | Returns plain =>
      let decrypted := utf8_decode P plain in
      ([DecipherAttempted iv aad nounce encrypted; MessageVerified decrypted],
       mb_verify P now decrypted)
  end.

(** [decrypt] once [value.split(this.separator)] is destructured: the
    first six parts are bound, a missing one is [undefined], and parts
    after the sixth are not bound to anything. *)
Definition decrypt_parts (d : Driver) (now : Z) (parts : list string)
    (purpose : option string) : list Event * Outcome JsValue :=
  match parts with
  | id' :: algo :: encryptedEncoded :: ivEncoded :: nounceEncoded
      :: hash :: _ =>
      if Str.falsy id' || Str.falsy algo || Str.falsy encryptedEncoded
         || Str.falsy ivEncoded || Str.falsy nounceEncoded
         || Str.falsy hash
      then ([], Returns JNull)
      else if negb (String.eqb algo algorithm_tag)
      then ([], Returns JNull)
      else if negb (String.eqb id' (id d))
      then ([], Returns JNull)
      else
        let encrypted := Hex.decode encryptedEncoded in
        if negb (Str.truthy_object encrypted) then ([], Returns JNull)
        else
        let iv := Hex.decode ivEncoded in
        if negb (Str.truthy_object iv) then ([], Returns JNull)
        else
        let nounce := Hex.decode nounceEncoded in
        if negb (Str.truthy_object nounce) then ([], Returns JNull)
        else
        let message :=
          encryptedEncoded ++ String (separator d) ivEncoded in
        let isValidHmac := hmac_compare (cryptoKey d) message hash in
        if negb isValidHmac
        then ([HmacCompared message hash false], Returns JNull)
        else
          let '(events, body) :=
            decipher_and_verify d now encrypted iv nounce purpose in
          (HmacCompared message hash true :: events,
           try_catch body JNull)
  | _ => ([], Returns JNull)
  end.

(** [decrypt(value, purpose)] with the events it causes. *)
Definition decrypt_run (d : Driver) (now : Z) (value : JsValue)
    (purpose : option string) : list Event * Outcome JsValue :=
  match value with
  | JString s => decrypt_parts d now (Str.split (separator d) s) purpose
  | _ => ([], Returns JNull)
  end.

Definition decrypt (d : Driver) (now : Z) (value : JsValue)
    (purpose : option string) : Outcome JsValue :=
  snd (decrypt_run d now value purpose).

Definition decrypt_events (d : Driver) (now : Z) (value : JsValue)
    (purpose : option string) : list Event :=
  fst (decrypt_run d now value purpose).

End AES256GCM.

(** ** What the theorems assume of the platform and of a driver *)

(** Text survives [Buffer.from(s)] followed by [buf.toString()], and the
    empty string is the empty buffer. *)
Record Utf8Laws (P : Platform) : Prop := {
  utf8_decode_encode : forall s, utf8_decode P (utf8_encode P s) = s;
  utf8_encode_empty : utf8_encode P EmptyString = []
}.

(** GCM as a cipher: opening what was sealed, with the same key, IV and
    associated data, gives the plaintext back; the ciphertext is as long
    as the plaintext; there is an auth tag. *)
Record AeadLaws (P : Platform) : Prop := {
  open_seal : forall key iv aad plain,
    aead_open P key iv aad (snd (aead_seal P key iv aad plain))
      (fst (aead_seal P key iv aad plain)) = Returns plain;
  seal_length : forall key iv aad plain,
    List.length (fst (aead_seal P key iv aad plain)) = List.length plain;
  tag_nonempty : forall key iv aad plain,
    snd (aead_seal P key iv aad plain) <> []
}.


(** The envelope invariant: every field is non-empty and the separator
    occurs in no field value, for the fields the driver and its
    configuration decide (the id, the algorithm tag, hex text, the MAC). *)
Record FieldsSafe (P : Platform) (d : Driver) : Prop := {
  id_nonempty : Str.falsy (id d) = false;
  id_free : Str.contains (separator d) (id d) = false;
  tag_free : Str.contains (separator d) algorithm_tag = false;
  hex_free : Hex.is_digit (separator d) = false;
  mac_nonempty : forall message,
    Str.falsy (hmac_generate P (cryptoKey d) message) = false;
  mac_free : forall message,
    Str.contains (separator d) (hmac_generate P (cryptoKey d) message) = false
}.

(** The codec takes [v], without expiry, to a non-empty text at time
    [now] and takes that text back to [v] at time [now']. *)
Definition codec_round_trips (P : Platform) (now now' : Z) (v : JsValue)
    : Prop :=
  exists text,
    mb_build P now v None = Returns text /\
    Str.falsy text = false /\
    mb_verify P now' text = Returns v.

(** The [n]-th separator-delimited field of an envelope. *)
Definition envelope_field (d : Driver) (envelope : string) (n : nat)
    : option string :=
  nth_error (Str.split (separator d) envelope) n.

(** The six fields [encrypt] puts in an envelope for the encoded value
    [text]: the id, the algorithm tag, the hex of the ciphertext, of the
    IV and of the auth tag, and the MAC of the third and fourth joined. *)
Definition sealed_fields (P : Platform) (d : Driver) (iv : bytes)
    (aad : option bytes) (text : string) : list string :=
  let sealed := aead_seal P (cryptoKey d) iv aad (utf8_encode P text) in
  let ciphertextHex := Hex.encode (fst sealed) in
  let ivHex := Hex.encode iv in
  [id d; algorithm_tag; ciphertextHex; ivHex; Hex.encode (snd sealed);
   hmac_generate P (cryptoKey d)
     (ciphertextHex ++ String (separator d) ivHex)].

(** The sealed fields with [junk] appended to the auth-tag field. *)
Definition sealed_fields_with_tag_suffix (P : Platform) (d : Driver)
    (iv : bytes) (aad : option bytes) (text junk : string) : list string :=
  match sealed_fields P d iv aad text with
  | [id'; algo; ciphertextHex; ivHex; tagHex; mac] =>
      [id'; algo; ciphertextHex; ivHex; tagHex ++ junk; mac]
  | fields => fields
  end.

(** ** A small executable platform

    An instance of [Platform] that computes inside Rocq: a one-byte
    stream cipher with a tag that spells out what it authenticates, a
    checksum for the MAC and a prefix code for the codec.  It is not
    AES, SHA or JSON; it shows that the laws the theorems assume can be
    met together, and lets the driver run on concrete inputs. *)

Module Sample.

Definition xor_byte (a b : byte) : byte :=
  let '(a0, (a1, (a2, (a3, (a4, (a5, (a6, a7))))))) := Byte.to_bits a in
  let '(b0, (b1, (b2, (b3, (b4, (b5, (b6, b7))))))) := Byte.to_bits b in
  Byte.of_bits
    (xorb a0 b0, (xorb a1 b1, (xorb a2 b2, (xorb a3 b3,
    (xorb a4 b4, (xorb a5 b5, (xorb a6 b6, xorb a7 b7))))))).

Definition checksum (b : bytes) : byte := fold_right xor_byte x00 b.

Fixpoint bytes_eqb (a b : bytes) : bool :=
  match a, b with
  | [], [] => true
  | x :: a', y :: b' => Byte.eqb x y && bytes_eqb a' b'
  | _, _ => false
  end.

Definition mask (key iv : bytes) : byte := checksum (key ++ iv)%list.

Definition tag_of (key iv : bytes) (aad : option bytes) (c : bytes) : bytes :=
  (mask key iv :: checksum c :: aad_bytes aad)%list.

Definition seal (key iv : bytes) (aad : option bytes) (plain : bytes)
    : bytes * bytes :=
  let c := map (xor_byte (mask key iv)) plain in
  (c, tag_of key iv aad c).

Definition open (key iv : bytes) (aad : option bytes) (tag c : bytes)
    : Outcome bytes :=
  if bytes_eqb (tag_of key iv aad c) tag
  then Returns (map (xor_byte (mask key iv)) c)
  else Throws.

Definition digest (key : bytes) (message : string) : string :=
  Hex.encode [checksum (key ++ list_byte_of_string message)%list].

(** *** The codec: a prefix code for values *)

Fixpoint ser_pos (p : positive) : string :=
  match p with
  | xI q => String "1" (ser_pos q)
  | xO q => String "0" (ser_pos q)
  | xH => ";"
  end.

Definition ser_Z (z : Z) : string :=
  match z with
  | Z0 => "z"
  | Zpos p => String "+" (ser_pos p)
  | Zneg p => String "-" (ser_pos p)
  end.

Definition ser_text (s : string) : string :=
  ser_Z (Z.of_nat (String.length s)) ++ s.

Fixpoint ser (v : JsValue) : string :=
  match v with
  | JUndefined => "u"
  | JNull => "n"
  | JBool true => "t"
  | JBool false => "f"
  | JNumber n => String "#" (ser_Z n)
  | JString s => String "s" (ser_text s)
  | JDate t => String "d" (ser_Z t)
  | JArray items =>
      String "[" (String.concat "" (map ser items) ++ "]")
  | JObject entries =>
      String "{"
        (String.concat ""
           (map (fun kv => ser_text (fst kv) ++ ser (snd kv)) entries)
         ++ "}")
  end.

Fixpoint serializable (v : JsValue) : bool :=
  match v with
  | JUndefined => false
  | JArray items => forallb serializable items
  | JObject entries => forallb (fun kv => serializable (snd kv)) entries
  | _ => true
  end.

Fixpoint parse_pos (s : string) : option (positive * string) :=
  match s with
  | String ";" r => Some (xH, r)
  | String "1" r =>
      match parse_pos r with
      | Some (p, r') => Some (xI p, r')
      | None => None
      end
  | String "0" r =>
      match parse_pos r with
      | Some (p, r') => Some (xO p, r')
      | None => None
      end
  | _ => None
  end.

Definition parse_Z (s : string) : option (Z * string) :=
  match s with
  | String "z" r => Some (Z0, r)
  | String "+" r =>
      match parse_pos r with
      | Some (p, r') => Some (Zpos p, r')
      | None => None
      end
  | String "-" r =>
      match parse_pos r with
      | Some (p, r') => Some (Zneg p, r')
      | None => None
      end
  | _ => None
  end.

Fixpoint take (n : nat) (s : string) : option (string * string) :=
  match n, s with
  | O, _ => Some (EmptyString, s)
  | S m, String a r =>
      match take m r with
      | Some (h, t) => Some (String a h, t)
      | None => None
      end
  | S _, EmptyString => None
  end.

Definition parse_text (s : string) : option (string * string) :=
  match parse_Z s with
  | Some (n, r) => if (n <? 0)%Z then None else take (Z.to_nat n) r
  | None => None
  end.

Fixpoint parse (fuel : nat) (s : string) : option (JsValue * string) :=
  match fuel with
  | O => None
  | S fuel' =>
      match s with
      | String "n" r => Some (JNull, r)
      | String "t" r => Some (JBool true, r)
      | String "f" r => Some (JBool false, r)
      | String "#" r =>
          match parse_Z r with
          | Some (n, r') => Some (JNumber n, r')
          | None => None
          end
      | String "d" r =>
          match parse_Z r with
          | Some (n, r') => Some (JDate n, r')
          | None => None
          end
      | String "s" r =>
          match parse_text r with
          | Some (t, r') => Some (JString t, r')
          | None => None
          end
      | String "[" r =>
          match parse_items fuel' r with
          | Some (items, r') => Some (JArray items, r')
          | None => None
          end
      | String "{" r =>
          match parse_entries fuel' r with
          | Some (entries, r') => Some (JObject entries, r')
          | None => None
          end
      | _ => None
      end
  end
with parse_items (fuel : nat) (s : string)
    : option (list JsValue * string) :=
  match fuel with
  | O => None
  | S fuel' =>
      match s with
      | String "]" r => Some ([], r)
      | _ =>
          match parse fuel' s with
          | Some (v, r) =>
              match parse_items fuel' r with
              | Some (vs, r') => Some (v :: vs, r')
              | None => None
              end
          | None => None
          end
      end
  end
with parse_entries (fuel : nat) (s : string)
    : option (list (string * JsValue) * string) :=
  match fuel with
  | O => None
  | S fuel' =>
      match s with
      | String "}" r => Some ([], r)
      | _ =>
          match parse_text s with
          | Some (k, r) =>
              match parse fuel' r with
              | Some (v, r') =>
                  match parse_entries fuel' r' with
                  | Some (kvs, r'') => Some ((k, v) :: kvs, r'')
                  | None => None
                  end
              | None => None
              end
          | None => None
          end
      end
  end.

(** An envelope of the value: ["x"] for no expiry, ["e"] and the
    absolute expiry time otherwise. *)
Definition build (now : Z) (payload : JsValue) (expiresIn : option Expiry)
    : Outcome string :=
  if negb (serializable payload) then Throws
  else match expiresIn with
       | None => Returns (String "x" (ser payload))
       | Some (ExpiresInMs n) =>
           Returns (String "e" (ser_Z (now + n)) ++ ser payload)
       | Some (ExpiresInText _) => Throws
       end.

Definition parse_whole (s : string) : JsValue :=
  match parse (S (String.length s)) s with
  | Some (v, EmptyString) => v
  | _ => JNull
  end.

Definition verify (now : Z) (s : string) : Outcome JsValue :=
  match s with
  | String "x" r => Returns (parse_whole r)
  | String "e" r =>
      match parse_Z r with
      | Some (expiry, r') =>
          if (expiry <=? now)%Z then Returns JNull
          else Returns (parse_whole r')
      | None => Returns JNull
      end
  | _ => Returns JNull
  end.

Definition platform : Platform := {|
  min_secret_length := 16;
  kdf := fun secret =>
    let b := list_byte_of_string secret in
    firstn 32 (b ++ repeat (checksum b) 32)%list;
  utf8_encode := list_byte_of_string;
  utf8_decode := string_of_list_byte;
  aead_seal := seal;
  aead_open := open;
  hmac_digest := digest;
  mb_build := build;
  mb_verify := verify
|}.

Definition config : AES256GCMConfig := {|
  cfg_id := JString "app";
  cfg_secret := "averylongrandomsecretkey";
  cfg_separator := None
|}.

Definition driver : Driver := {|
  id := "app";
  cryptoKey := kdf platform "averylongrandomsecretkey";
  separator := "."
|}.

Definition iv1 : bytes :=
  [x10; x01; x02; x03; x04; x05; x06; x07;
   x08; x09; x0a; x0b; x0c; x0d; x0e; x0f].


Definition payload : JsValue :=
  JObject [("user", JString "virk");
           ("roles", JArray [JNumber 1; JBool true; JNull; JDate 1700000000000])].

End Sample.

(** * Facts about strings *)

Module StrFacts.

Lemma split_nonempty sep s : Str.split sep s <> [].
Proof.
  destruct s as [|a r]; simpl; [discriminate|].
  destruct (Ascii.eqb a sep); [discriminate|].
  destruct (Str.split sep r); discriminate.
Qed.

Lemma contains_app c a b :
  Str.contains c (a ++ b) = Str.contains c a || Str.contains c b.
Proof.
  induction a as [|x a IH]; simpl; [reflexivity|].
  now rewrite IH, orb_assoc.
Qed.

(** Splitting distributes over a separator. *)
Lemma split_app sep a b :
  Str.split sep (a ++ String sep b)
  = (Str.split sep a ++ Str.split sep b)%list.
Proof.
  induction a as [|x a IH]; simpl.
  - now rewrite Ascii.eqb_refl.
  - destruct (Ascii.eqb x sep); [now rewrite IH|].
    rewrite IH.
    destruct (Str.split sep a) as [|h t] eqn:E; [|reflexivity].
    now destruct (split_nonempty _ _ E).
Qed.

Lemma split_free sep s :
  Str.contains sep s = false -> Str.split sep s = [s].
Proof.
  induction s as [|x s IH]; simpl; [reflexivity|].
  intros H. apply orb_false_iff in H as [Hx Hs].
  rewrite Hx, (IH Hs). reflexivity.
Qed.

(** No part of a split contains the separator. *)
Lemma split_parts_free sep s part :
  In part (Str.split sep s) -> Str.contains sep part = false.
Proof.
  revert part. induction s as [|x s IH]; simpl; intros part Hin.
  - destruct Hin as [<-|[]]. reflexivity.
  - destruct (Ascii.eqb x sep) eqn:Ex.
    + destruct Hin as [<-|Hin]; [reflexivity|now apply IH].
    + destruct (Str.split sep s) as [|h t] eqn:E.
      * now destruct (split_nonempty _ _ E).
      * destruct Hin as [<-|Hin].
        -- simpl. rewrite Ex. apply IH. now left.
        -- apply IH. now right.
Qed.

Lemma join_cons sep v w rest :
  Str.join sep (v :: w :: rest) = v ++ String sep (Str.join sep (w :: rest)).
Proof. reflexivity. Qed.

(** Joining separator-free fields and splitting again gives the fields. *)
Lemma split_join sep fields :
  fields <> [] ->
  Forall (fun f => Str.contains sep f = false) fields ->
  Str.split sep (Str.join sep fields) = fields.
Proof.
  induction fields as [|v rest IH]; intros Hne Hall; [contradiction|].
  inversion Hall as [|? ? Hv Hrest]; subst.
  destruct rest as [|w rest'].
  - simpl. now apply split_free.
  - rewrite join_cons, split_app, (split_free _ _ Hv), IH;
      [reflexivity|discriminate|assumption].
Qed.

Lemma append_assoc (a b c : string) : (a ++ b) ++ c = a ++ (b ++ c).
Proof. induction a as [|x a IH]; simpl; [reflexivity|now rewrite IH]. Qed.

Lemma falsy_false_iff s : Str.falsy s = false <-> s <> EmptyString.
Proof. destruct s; simpl; split; congruence. Qed.

End StrFacts.

(** * Facts about hex text *)

Module HexFacts.

Lemma byte_digits (x : byte) :
  Hex.value (Hex.digit (Byte.to_N x / 16)) = Some (Byte.to_N x / 16)%N /\
  Hex.value (Hex.digit (Byte.to_N x mod 16)) = Some (Byte.to_N x mod 16)%N /\
  Byte.of_N ((Byte.to_N x / 16) * 16 + Byte.to_N x mod 16) = Some x.
Proof. destruct x; vm_compute; repeat split. Qed.

(** Decoding reads back what was encoded and goes on with the rest. *)
Lemma decode_encode_app b rest :
  Hex.decode (Hex.encode b ++ rest) = (b ++ Hex.decode rest)%list.
Proof.
  induction b as [|x b IH]; [reflexivity|].
  destruct (byte_digits x) as (Hhi & Hlo & Hx).
  cbn [Hex.encode String.append Hex.decode].
  rewrite Hhi, Hlo, Hx, IH. reflexivity.
Qed.

Lemma append_empty (s : string) : s ++ EmptyString = s.
Proof. induction s as [|x s IH]; simpl; [reflexivity|now rewrite IH]. Qed.

Lemma decode_encode b : Hex.decode (Hex.encode b) = b.
Proof.
  rewrite <- (append_empty (Hex.encode b)), decode_encode_app.
  simpl. apply app_nil_r.
Qed.


Lemma encode_is_hex b : Hex.well_formed (Hex.encode b) = true.
Proof.
  induction b as [|x b IH]; [reflexivity|].
  destruct (byte_digits x) as (Hhi & Hlo & _).
  cbn [Hex.encode Hex.well_formed]. unfold Hex.is_digit.
  rewrite Hhi, Hlo, IH. reflexivity.
Qed.

(** A character that is not a hex digit occurs in no hex text. *)
Lemma encode_free c b :
  Hex.is_digit c = false -> Str.contains c (Hex.encode b) = false.
Proof.
  intros Hc. induction b as [|x b IH]; [reflexivity|].
  destruct (byte_digits x) as (Hhi & Hlo & _).
  cbn [Hex.encode Str.contains]. rewrite IH, orb_false_r.
  apply orb_false_iff. split.
  - destruct (Ascii.eqb_spec (Hex.digit (Byte.to_N x / 16)) c) as [E|];
      [|reflexivity].
    unfold Hex.is_digit in Hc. rewrite <- E, Hhi in Hc. discriminate.
  - destruct (Ascii.eqb_spec (Hex.digit (Byte.to_N x mod 16)) c) as [E|];
      [|reflexivity].
    unfold Hex.is_digit in Hc. rewrite <- E, Hlo in Hc. discriminate.
Qed.

Lemma encode_nonempty b : b <> [] -> Str.falsy (Hex.encode b) = false.
Proof. destruct b; [contradiction|reflexivity]. Qed.

(** Text that is hex followed by something that is not. *)
Lemma encode_then_junk_ill_formed b junk :
  Hex.well_formed junk = false ->
  Hex.well_formed (Hex.encode b ++ junk) = false.
Proof.
  intros Hj. induction b as [|x b IH]; [exact Hj|].
  cbn [Hex.encode String.append Hex.well_formed].
  rewrite IH. apply andb_false_r.
Qed.

End HexFacts.

(** * The driver *)

Section DriverFacts.

Variable P : Platform.

(** [encrypt] returns the six sealed fields joined, or throws with the
    codec. *)
Lemma encrypt_unfold d now iv payload expiresIn purpose :
  encrypt P d now iv payload expiresIn purpose
  = match mb_build P now payload expiresIn with
    | Throws => Throws
    | Returns text =>
        Returns (Str.join (separator d)
                   (sealed_fields P d iv (purpose_aad P purpose) text))
    end.
Proof.
  unfold encrypt, sealed_fields, computeReturns.
  destruct (mb_build P now payload expiresIn) as [text|]; [|reflexivity].
  destruct (aead_seal _ _ _ _ _) as [c tag]. cbn [fst snd].
  f_equal. cbn [Str.join].
  rewrite !StrFacts.append_assoc. reflexivity.
Qed.

Lemma sealed_fields_free d iv aad text :
  FieldsSafe P d ->
  Forall (fun f => Str.contains (separator d) f = false)
    (sealed_fields P d iv aad text).
Proof.
  intros S. unfold sealed_fields.
  pose proof (hex_free _ _ S) as Hhex.
  repeat constructor;
    first [ apply (id_free _ _ S) | apply (tag_free _ _ S)
          | apply (mac_free _ _ S) | now apply HexFacts.encode_free ].
Qed.

Lemma split_sealed d iv aad text :
  FieldsSafe P d ->
  Str.split (separator d)
    (Str.join (separator d) (sealed_fields P d iv aad text))
  = sealed_fields P d iv aad text.
Proof.
  intros S. apply StrFacts.split_join.
  - discriminate.
  - now apply sealed_fields_free.
Qed.

Lemma utf8_encode_nonempty text :
  Utf8Laws P -> Str.falsy text = false -> utf8_encode P text <> [].
Proof.
  intros U Hne E.
  pose proof (utf8_decode_encode _ U text) as Ht.
  rewrite E, <- (utf8_encode_empty _ U), (utf8_decode_encode _ U) in Ht.
  subst text. discriminate.
Qed.

Lemma sealed_ciphertext_nonempty key iv aad plain :
  AeadLaws P -> plain <> [] -> fst (aead_seal P key iv aad plain) <> [].
Proof.
  intros A Hne E.
  pose proof (seal_length _ A key iv aad plain) as L.
  rewrite E in L. destruct plain; [contradiction|discriminate].
Qed.

(** What [decrypt] does with the six sealed fields, and anything after
    them: the checks before the MAC pass, the MAC is valid, and the
    [try] block runs on the sealed ciphertext, IV and tag. *)
Lemma decrypt_parts_sealed d now iv aad text rest purpose :
  Utf8Laws P -> AeadLaws P -> FieldsSafe P d ->
  iv <> [] -> Str.falsy text = false ->
  let sealed := aead_seal P (cryptoKey d) iv aad (utf8_encode P text) in
  let message :=
    Hex.encode (fst sealed) ++ String (separator d) (Hex.encode iv) in
  decrypt_parts P d now (sealed_fields P d iv aad text ++ rest)%list purpose
  = (HmacCompared message (hmac_generate P (cryptoKey d) message) true
       :: fst (decipher_and_verify P d now (fst sealed) iv (snd sealed)
                 purpose),
     try_catch (snd (decipher_and_verify P d now (fst sealed) iv
                       (snd sealed) purpose)) JNull).
Proof.
  intros U A S Hiv Htext sealed message.
  unfold sealed_fields. fold sealed. fold message.
  cbn [app decrypt_parts].
  rewrite (id_nonempty _ _ S), (mac_nonempty _ _ S).
  rewrite (HexFacts.encode_nonempty iv Hiv).
  rewrite (HexFacts.encode_nonempty (snd sealed))
    by apply (tag_nonempty _ A).
  rewrite (HexFacts.encode_nonempty (fst sealed))
    by (apply sealed_ciphertext_nonempty;
        [assumption|now apply utf8_encode_nonempty]).
  cbn [Str.falsy orb].
  rewrite !String.eqb_refl. cbn [negb Str.truthy_object].
  unfold hmac_compare. fold message. rewrite String.eqb_refl. cbn [negb].
  rewrite !HexFacts.decode_encode.
  destruct (decipher_and_verify _ _ _ _ _ _ _); reflexivity.
Qed.

(** With the associated data it was sealed with, the [try] block ends in
    the codec's verdict on the encoded value. *)
Lemma decipher_sealed d now iv purpose text :
  Utf8Laws P -> AeadLaws P ->
  let sealed :=
    aead_seal P (cryptoKey d) iv (purpose_aad P purpose)
      (utf8_encode P text) in
  snd (decipher_and_verify P d now (fst sealed) iv (snd sealed) purpose)
  = mb_verify P now text.
Proof.
  intros U A sealed. unfold decipher_and_verify, sealed.
  rewrite (open_seal _ A). cbn [snd].
  now rewrite (utf8_decode_encode _ U).
Qed.

(** An empty purpose is no purpose. *)
Lemma purpose_aad_empty : purpose_aad P (Some EmptyString) = purpose_aad P None.
Proof. reflexivity. Qed.

(** Round trip of an encoded value under a purpose, through the
    envelope. *)
Lemma decrypt_encrypt d now now' iv payload purpose text rest :
  Utf8Laws P -> AeadLaws P -> FieldsSafe P d ->
  iv <> [] -> Str.falsy text = false ->
  mb_build P now payload None = Returns text ->
  exists envelope,
    encrypt P d now iv payload None purpose = Returns envelope /\
    Str.split (separator d) envelope
      = sealed_fields P d iv (purpose_aad P purpose) text /\
    decrypt_parts P d now'
      (sealed_fields P d iv (purpose_aad P purpose) text ++ rest)%list
      purpose
    = (fst (decrypt_parts P d now'
              (sealed_fields P d iv (purpose_aad P purpose) text ++ rest)%list
              purpose),
       try_catch (mb_verify P now' text) JNull).
Proof.
  intros U A S Hiv Htext Hbuild.
  eexists. split; [|split].
  - rewrite encrypt_unfold, Hbuild. reflexivity.
  - now apply split_sealed.
  - rewrite decrypt_parts_sealed by assumption. cbn [fst].
    now rewrite decipher_sealed.
Qed.

End DriverFacts.

(** * The small platform meets the laws *)

Module SampleFacts.

Lemma xorb_cancel (m a : bool) : xorb m (xorb m a) = a.
Proof. now destruct m, a. Qed.

Lemma xor_byte_cancel (m a : byte) :
  Sample.xor_byte m (Sample.xor_byte m a) = a.
Proof.
  unfold Sample.xor_byte.
  destruct (Byte.to_bits m)
    as (m0, (m1, (m2, (m3, (m4, (m5, (m6, m7))))))) eqn:Em.
  destruct (Byte.to_bits a)
    as (a0, (a1, (a2, (a3, (a4, (a5, (a6, a7))))))) eqn:Ea.
  rewrite Byte.to_bits_of_bits, !xorb_cancel, <- Ea.
  apply Byte.of_bits_to_bits.
Qed.

Lemma bytes_eqb_eq a b : Sample.bytes_eqb a b = true <-> a = b.
Proof.
  revert b. induction a as [|x a IH]; intros [|y b]; simpl;
    try (split; [discriminate|discriminate]); [tauto|].
  rewrite andb_true_iff, IH. split.
  - intros [Hx ->]. now rewrite (Byte.byte_dec_bl _ _ Hx).
  - intros E. injection E as -> ->. split; [|reflexivity].
    now apply Byte.byte_dec_lb.
Qed.

Lemma utf8_laws : Utf8Laws Sample.platform.
Proof.
  split; [|reflexivity].
  intros s. apply string_of_list_byte_of_string.
Qed.

Lemma aead_laws : AeadLaws Sample.platform.
Proof.
  split; cbn [aead_open aead_seal Sample.platform]; unfold Sample.seal;
    intros key iv aad plain; cbn [fst snd].
  - unfold Sample.open.
    rewrite (proj2 (bytes_eqb_eq _ _) eq_refl), map_map.
    f_equal. rewrite <- (map_id plain) at 2.
    apply map_ext. intros a. apply xor_byte_cancel.
  - apply length_map.
  - discriminate.
Qed.


Lemma fields_safe : FieldsSafe Sample.platform Sample.driver.
Proof.
  split; try reflexivity; intros message.
  apply HexFacts.encode_free. reflexivity.
Qed.

Lemma payload_round_trips :
  codec_round_trips Sample.platform 0 5 Sample.payload.
Proof. eexists. vm_compute. repeat split. Qed.

End SampleFacts.

(** * What [decrypt] accepts *)

Section Acceptance.

Variable P : Platform.

Lemma try_catch_returns {A} (body : Outcome A) (fallback : A) :
  exists a, try_catch body fallback = Returns a.
Proof. destruct body; simpl; eauto. Qed.

Lemma try_catch_inv (body : Outcome JsValue) v :
  try_catch body JNull = Returns v -> v <> JNull -> body = Returns v.
Proof.
  destruct body as [a|]; simpl; intros E Hv.
  - exact E.
  - injection E as <-. now destruct Hv.
Qed.

(** [decrypt] always returns. *)
Lemma decrypt_parts_returns d now parts purpose :
  exists v, snd (decrypt_parts P d now parts purpose) = Returns v.
Proof.
  unfold decrypt_parts.
  destruct parts as [|f1 [|f2 [|f3 [|f4 [|f5 [|f6 rest]]]]]];
    try (simpl; eauto; fail).
  repeat match goal with
         | |- context [if ?c then _ else _] => destruct c
         end; try (simpl; eauto; fail).
  destruct (decipher_and_verify _ _ _ _ _ _ _) as [events body].
  cbn [snd]. apply try_catch_returns.
Qed.

(** Fewer than six parts: some destructured name is [undefined]. *)
Lemma decrypt_parts_short d now parts purpose :
  (List.length parts < 6)%nat ->
  decrypt_parts P d now parts purpose = ([], Returns JNull).
Proof.
  destruct parts as [|f1 [|f2 [|f3 [|f4 [|f5 [|f6 rest]]]]]];
    simpl; intros H; try reflexivity; lia.
Qed.

(** Parts after the sixth are never looked at. *)
Lemma decrypt_parts_ignores_rest d now parts more purpose :
  (6 <= List.length parts)%nat ->
  decrypt_parts P d now (parts ++ more)%list purpose
  = decrypt_parts P d now parts purpose.
Proof.
  destruct parts as [|f1 [|f2 [|f3 [|f4 [|f5 [|f6 rest]]]]]];
    simpl; intros H; try lia; reflexivity.
Qed.

(** The checks before the MAC, spelled out: what parts pass them, and
    what [decrypt] does then. *)
Lemma decrypt_parts_accepted d now enc ivE nE hash rest purpose :
  Str.falsy (id d) = false ->
  Str.falsy enc = false -> Str.falsy ivE = false ->
  Str.falsy nE = false -> Str.falsy hash = false ->
  let message := enc ++ String (separator d) ivE in
  let run :=
    decipher_and_verify P d now (Hex.decode enc) (Hex.decode ivE)
      (Hex.decode nE) purpose in
  decrypt_parts P d now
    (id d :: algorithm_tag :: enc :: ivE :: nE :: hash :: rest) purpose
  = if hmac_compare P (cryptoKey d) message hash
    then (HmacCompared message hash true :: fst run,
          try_catch (snd run) JNull)
    else ([HmacCompared message hash false], Returns JNull).
Proof.
  intros Hid Henc Hiv Hn Hh message run.
  cbn [decrypt_parts].
  rewrite Hid, Henc, Hiv, Hn, Hh. cbn [Str.falsy orb].
  rewrite !String.eqb_refl. cbn [negb Str.truthy_object].
  fold message. destruct (hmac_compare _ _ _ _); cbn [negb];
    [|reflexivity].
  fold run. destruct run; reflexivity.
Qed.

(** Whatever got a value other than [null] out of [decrypt] had six
    non-empty leading parts, the right algorithm tag and id, a valid
    MAC, and went through the [try] block. *)
Lemma decrypt_parts_inv d now parts purpose v :
  snd (decrypt_parts P d now parts purpose) = Returns v -> v <> JNull ->
  exists enc ivE nE hash rest,
    parts = id d :: algorithm_tag :: enc :: ivE :: nE :: hash :: rest /\
    Str.falsy (id d) = false /\ Str.falsy enc = false /\
    Str.falsy ivE = false /\ Str.falsy nE = false /\
    Str.falsy hash = false /\
    hash = hmac_generate P (cryptoKey d) (enc ++ String (separator d) ivE) /\
    snd (decipher_and_verify P d now (Hex.decode enc) (Hex.decode ivE)
           (Hex.decode nE) purpose) = Returns v.
Proof.
  intros E Hv.
  assert (Hnull : forall events : list Event,
             snd (events, Returns JNull) = Returns v -> False).
  { intros events H. cbn in H. injection H as <-. now apply Hv. }
  destruct parts as [|f1 [|f2 [|f3 [|f4 [|f5 [|f6 rest]]]]]];
    try (now apply Hnull in E).
  cbn [decrypt_parts] in E.
  destruct (Str.falsy f1) eqn:H1; [now apply Hnull in E|].
  destruct (Str.falsy f2) eqn:H2; [now apply Hnull in E|].
  destruct (Str.falsy f3) eqn:H3; [now apply Hnull in E|].
  destruct (Str.falsy f4) eqn:H4; [now apply Hnull in E|].
  destruct (Str.falsy f5) eqn:H5; [now apply Hnull in E|].
  destruct (Str.falsy f6) eqn:H6; [now apply Hnull in E|].
  cbn [orb] in E.
  destruct (String.eqb_spec f2 algorithm_tag) as [->|];
    [|now apply Hnull in E].
  destruct (String.eqb_spec f1 (id d)) as [->|]; [|now apply Hnull in E].
  cbn [negb Str.truthy_object] in E.
  unfold hmac_compare in E.
  destruct (String.eqb_spec
              (hmac_generate P (cryptoKey d)
                 (f3 ++ String (separator d) f4)) f6) as [Hmac|];
    [|now apply Hnull in E].
  cbn [negb] in E.
  destruct (decipher_and_verify _ _ _ _ _ _ _) as [events body] eqn:R.
  cbn [snd] in E. apply try_catch_inv in E; [|assumption].
  exists f3, f4, f5, f6, rest.
  repeat split; try assumption; try now symmetry.
  now rewrite R.
Qed.

(** The events of a run, whatever the input: nothing, or the MAC
    comparison followed, only when it was valid, by the [try] block. *)
Lemma decrypt_parts_events d now parts purpose :
  fst (decrypt_parts P d now parts purpose) = [] \/
  exists f1 f2 enc ivE nE hash rest,
    parts = f1 :: f2 :: enc :: ivE :: nE :: hash :: rest /\
    let message := enc ++ String (separator d) ivE in
    (hmac_compare P (cryptoKey d) message hash = false /\
     decrypt_parts P d now parts purpose
     = ([HmacCompared message hash false], Returns JNull))
    \/
    (hmac_compare P (cryptoKey d) message hash = true /\
     fst (decrypt_parts P d now parts purpose)
     = HmacCompared message hash true
         :: fst (decipher_and_verify P d now (Hex.decode enc)
                   (Hex.decode ivE) (Hex.decode nE) purpose)).
Proof.
  destruct parts as [|f1 [|f2 [|f3 [|f4 [|f5 [|f6 rest]]]]]];
    try (left; reflexivity).
  cbn [decrypt_parts].
  destruct (_ || _); [left; reflexivity|].
  destruct (negb (String.eqb f2 algorithm_tag)); [left; reflexivity|].
  destruct (negb (String.eqb f1 (id d))); [left; reflexivity|].
  cbn [negb Str.truthy_object].
  right. exists f1, f2, f3, f4, f5, f6, rest. split; [reflexivity|].
  cbn zeta.
  destruct (hmac_compare _ _ _ _) eqn:Hc; cbn [negb].
  - right. split; [reflexivity|].
    destruct (decipher_and_verify _ _ _ _ _ _ _); reflexivity.
  - left. split; reflexivity.
Qed.

Lemma decipher_events_shape d now encrypted iv nounce purpose :
  exists attempt later,
    fst (decipher_and_verify P d now encrypted iv nounce purpose)
    = attempt :: later /\
    is_decipher attempt = true /\
    Forall (fun e => is_decipher e = false) later.
Proof.
  unfold decipher_and_verify.
  destruct (aead_open _ _ _ _ _ _); eexists; eexists; cbn [fst];
    repeat split; repeat constructor.
Qed.

End Acceptance.

(** * Round trips *)

Section RoundTrip.

Variable P : Platform.

Lemma sixteen_bytes_nonempty (iv : bytes) :
  List.length iv = 16%nat -> iv <> [].
Proof. destruct iv; [discriminate|discriminate]. Qed.

(** Encrypting under a purpose and decrypting under the same purpose
    gives the payload back, when the codec does. *)
Lemma round_trip_under_purpose d now now' iv payload purpose :
  Utf8Laws P -> AeadLaws P -> FieldsSafe P d ->
  iv <> [] ->
  codec_round_trips P now now' payload ->
  exists envelope,
    encrypt P d now iv payload None purpose = Returns envelope /\
    decrypt P d now' (JString envelope) purpose = Returns payload.
Proof.
  intros U A S Hiv (text & Hbuild & Htext & Hverify).
  destruct (decrypt_encrypt P d now now' iv payload purpose text []
              U A S Hiv Htext Hbuild) as (envelope & Henc & Hsplit & Hdec).
  exists envelope. split; [exact Henc|].
  unfold decrypt, decrypt_run. rewrite Hsplit.
  rewrite app_nil_r in Hdec. rewrite Hdec. cbn [snd].
  rewrite Hverify. reflexivity.
Qed.

End RoundTrip.

(** C1, as the code has it: for every value that the codec serialises to
    a text it reads back as that value, with no expiry and no purpose,
    decrypting what [encrypt] returned, on the same driver, returns that
    value, provided the driver's id is non-empty and the separator occurs
    in none of the envelope's fields.  The IV is the sixteen bytes drawn
    for the call. *)
Theorem decrypt_encrypt_round_trip
    (P : Platform) (d : Driver) (now now' : Z) (iv : bytes)
    (payload : JsValue) :
  Utf8Laws P -> AeadLaws P -> FieldsSafe P d ->
  List.length iv = 16%nat ->
  codec_round_trips P now now' payload ->
  exists envelope,
    encrypt P d now iv payload None None = Returns envelope /\
    decrypt P d now' (JString envelope) None = Returns payload.
Proof.
  intros U A S Hiv Hcodec.
  apply round_trip_under_purpose;
    auto using sixteen_bytes_nonempty.
Qed.

Lemma decrypt_encrypt_round_trip_witness :
  exists envelope,
    encrypt Sample.platform Sample.driver 0 Sample.iv1 Sample.payload
      None None = Returns envelope /\
    decrypt Sample.platform Sample.driver 5 (JString envelope) None
    = Returns Sample.payload.
Proof.
  apply (decrypt_encrypt_round_trip Sample.platform Sample.driver 0 5
           Sample.iv1 Sample.payload).
  - exact SampleFacts.utf8_laws.
  - exact SampleFacts.aead_laws.
  - exact SampleFacts.fields_safe.
  - reflexivity.
  - exact SampleFacts.payload_round_trips.
Defined.

(** C1 as stated fails on drivers the constructor accepts: with the id
    "a.b", and with the empty id, [decrypt] returns [null] for the
    driver's own envelope of a value that is not [null]. *)
Lemma round_trip_fails_for_unusable_id :
  (exists d envelope,
     construct Sample.platform
       {| cfg_id := JString "a.b";
          cfg_secret := "averylongrandomsecretkey";
          cfg_separator := None |} = Constructed d /\
     encrypt Sample.platform d 0 Sample.iv1 Sample.payload None None
     = Returns envelope /\
     decrypt Sample.platform d 5 (JString envelope) None = Returns JNull) /\
  (exists d envelope,
     construct Sample.platform
       {| cfg_id := JString EmptyString;
          cfg_secret := "averylongrandomsecretkey";
          cfg_separator := None |} = Constructed d /\
     encrypt Sample.platform d 0 Sample.iv1 Sample.payload None None
     = Returns envelope /\
     decrypt Sample.platform d 5 (JString envelope) None = Returns JNull) /\
  Sample.payload <> JNull.
Proof.
  split; [|split].
  - eexists. eexists. split; [reflexivity|].
    split; [reflexivity|vm_compute; reflexivity].
  - eexists. eexists. split; [reflexivity|].
    split; [reflexivity|vm_compute; reflexivity].
  - discriminate.
Qed.



(** * Purposes *)

Section PurposeBinding.

Variable P : Platform.

Lemma split_join_parts sep fields :
  fields <> [] ->
  Str.split sep (Str.join sep fields)
  = List.concat (map (Str.split sep) fields).
Proof.
  induction fields as [|v rest IH]; intros Hne; [contradiction|].
  destruct rest as [|w rest'].
  - cbn [Str.join map List.concat]. now rewrite app_nil_r.
  - rewrite StrFacts.join_cons, StrFacts.split_app, IH by discriminate.
    reflexivity.
Qed.


Lemma null_or_not (v : JsValue) : {v = JNull} + {v <> JNull}.
Proof. destruct v; (left; reflexivity) || (right; discriminate). Qed.






End PurposeBinding.




(** * Inputs [decrypt] rejects, and parts it ignores *)

Lemma split_length_le (sep : ascii) (s : string) :
  (List.length (Str.split sep s) <= S (String.length s))%nat.
Proof.
  induction s as [|a r IH]; simpl; [lia|].
  destruct (Ascii.eqb a sep); simpl; [lia|].
  destruct (Str.split sep r); simpl in *; lia.
Qed.

Lemma decrypt_second_part (P : Platform) d now s purpose :
  envelope_field d s 1 <> Some algorithm_tag ->
  decrypt P d now (JString s) purpose = Returns JNull.
Proof.
  unfold envelope_field, decrypt, decrypt_run. intros Hne.
  destruct (Str.split (separator d) s)
    as [|f1 [|f2 [|f3 [|f4 [|f5 [|f6 rest]]]]]]; try reflexivity.
  cbn [decrypt_parts].
  destruct (_ || _); [reflexivity|].
  destruct (String.eqb_spec f2 algorithm_tag) as [->|]; [|reflexivity].
  now destruct Hne.
Qed.

(** C3: [decrypt] never throws, whatever it is given; and it returns
    [null] for a value that is not a string, for the empty string, for a
    garbage string, for a string with fewer than six separator-delimited
    fields, and for an envelope whose algorithm tag is not "aes256gcm". *)
Theorem decrypt_never_throws
    (P : Platform) (d : Driver) (now : Z) (value : JsValue)
    (purpose : option string) :
  (exists v, decrypt P d now value purpose = Returns v) /\
  (typeof_string value = false ->
   decrypt P d now value purpose = Returns JNull) /\
  decrypt P d now (JString EmptyString) purpose = Returns JNull /\
  decrypt P d now (JString "junk") purpose = Returns JNull /\
  (forall s,
     (List.length (Str.split (separator d) s) < 6)%nat ->
     decrypt P d now (JString s) purpose = Returns JNull) /\
  (forall s,
     envelope_field d s 1 <> Some algorithm_tag ->
     decrypt P d now (JString s) purpose = Returns JNull).
Proof.
  assert (Hshort : forall s,
            (List.length (Str.split (separator d) s) < 6)%nat ->
            decrypt P d now (JString s) purpose = Returns JNull).
  { intros s Hs. unfold decrypt, decrypt_run.
    now rewrite decrypt_parts_short. }
  split; [|split; [|split; [|split; [|split]]]].
  - unfold decrypt, decrypt_run. destruct value; cbn [snd]; eauto.
    apply decrypt_parts_returns.
  - destruct value; try reflexivity. discriminate.
  - apply Hshort. simpl. lia.
  - apply Hshort.
    pose proof (split_length_le (separator d) "junk") as L.
    cbn [String.length] in L. lia.
  - exact Hshort.
  - intros s. apply decrypt_second_part.
Qed.

Lemma decrypt_never_throws_witness :
  decrypt Sample.platform Sample.driver 5 (JNumber 42) None = Returns JNull /\
  decrypt Sample.platform Sample.driver 5 (JString "app.aes256gcm.00") None
  = Returns JNull /\
  decrypt Sample.platform Sample.driver 5
    (JString "app.aes128cbc.00.00.00.00") None = Returns JNull.
Proof.
  pose proof (decrypt_never_throws Sample.platform Sample.driver 5
                (JNumber 42) None) as (_ & Hvalue & _ & _ & Hshort & Htag).
  split; [|split].
  - apply Hvalue. reflexivity.
  - apply Hshort. vm_compute. lia.
  - apply Htag. vm_compute. discriminate.
Defined.

(** C9: [decrypt] ignores the fields after the sixth.  If it returns a
    value other than [null] for a string, it returns the same value for
    that string followed by the separator and any further text. *)
Theorem decrypt_ignores_extra_fields
    (P : Platform) (d : Driver) (now : Z) (envelope extra : string)
    (purpose : option string) (v : JsValue) :
  decrypt P d now (JString envelope) purpose = Returns v ->
  v <> JNull ->
  decrypt P d now (JString (envelope ++ String (separator d) extra)) purpose
  = Returns v.
Proof.
  unfold decrypt, decrypt_run. intros Hdec Hv.
  rewrite StrFacts.split_app, decrypt_parts_ignores_rest; [exact Hdec|].
  destruct (decrypt_parts_inv P d now _ purpose v Hdec Hv)
    as (enc & ivE & nE & hash & rest & -> & _).
  simpl. lia.
Qed.

Lemma decrypt_ignores_extra_fields_witness :
  decrypt Sample.platform Sample.driver 5
    (JString
       ("app.aes256gcm.616d.100102030405060708090a0b0c0d0e0f.190c.75"
        ++ String (separator Sample.driver) "anything.else"))
    None
  = Returns (JBool true).
Proof.
  apply (decrypt_ignores_extra_fields Sample.platform Sample.driver 5
           "app.aes256gcm.616d.100102030405060708090a0b0c0d0e0f.190c.75"
           "anything.else" None (JBool true)).
  - vm_compute. reflexivity.
  - discriminate.
Defined.

(** * Construction *)

(** C5, as the code has it: construction fails, with a configuration
    error, whenever the configured id is not a string (absent included),
    and with the missing-id error when the secret is acceptable; every
    accepted configuration has a string id, which may be empty. *)
Theorem construct_requires_string_id
    (P : Platform) (config : AES256GCMConfig) :
  (typeof_string (cfg_id config) = false ->
   exists e, construct P config = Failed e) /\
  (typeof_string (cfg_id config) = false ->
   base_driver_key P (cfg_secret config) <> Throws ->
   construct P config = Failed E_MISSING_ENCRYPTER_ID) /\
  (forall d,
     construct P config = Constructed d -> cfg_id config = JString (id d)).
Proof.
  unfold construct.
  destruct (base_driver_key P (cfg_secret config)) as [key|];
    destruct (cfg_id config); cbn [typeof_string];
    repeat split; intros;
    try discriminate; try contradiction; eauto.
  match goal with
  | H : Constructed _ = Constructed _ |- _ => injection H as <-
  end.
  reflexivity.
Qed.

Lemma construct_requires_string_id_witness :
  construct Sample.platform
    {| cfg_id := JUndefined; cfg_secret := "averylongrandomsecretkey";
       cfg_separator := None |}
  = Failed E_MISSING_ENCRYPTER_ID.
Proof.
  apply (construct_requires_string_id Sample.platform
           {| cfg_id := JUndefined; cfg_secret := "averylongrandomsecretkey";
              cfg_separator := None |}).
  - reflexivity.
  - vm_compute. discriminate.
Defined.

(** C5 as stated fails at the empty id: the constructor accepts it. *)
Lemma empty_id_is_accepted :
  exists d,
    construct Sample.platform
      {| cfg_id := JString EmptyString;
         cfg_secret := "averylongrandomsecretkey";
         cfg_separator := None |}
    = Constructed d /\
    id d = EmptyString.
Proof. eexists. split; reflexivity. Qed.

(** * The order of checks in [decrypt] *)

(** C6: in [decrypt], the MAC of the ciphertext field, the separator and
    the IV field is compared with the envelope's MAC field before any
    decryption is attempted: a decipher event is always preceded by
    exactly that comparison, and it was valid.  When the comparison fails
    [decrypt] returns [null] and no decipher event occurs. *)
Theorem hmac_checked_before_decipher
    (P : Platform) (d : Driver) (now : Z) (value : JsValue)
    (purpose : option string) :
  (forall before event after,
     decrypt_events P d now value purpose = (before ++ event :: after)%list ->
     is_decipher event = true ->
     exists s f1 f2 enc ivE nE hash rest,
       value = JString s /\
       Str.split (separator d) s
       = f1 :: f2 :: enc :: ivE :: nE :: hash :: rest /\
       hmac_compare P (cryptoKey d) (enc ++ String (separator d) ivE) hash
       = true /\
       before
       = [HmacCompared (enc ++ String (separator d) ivE) hash true]) /\
  (forall s f1 f2 enc ivE nE hash rest,
     value = JString s ->
     Str.split (separator d) s
     = f1 :: f2 :: enc :: ivE :: nE :: hash :: rest ->
     hmac_compare P (cryptoKey d) (enc ++ String (separator d) ivE) hash
     = false ->
     decrypt P d now value purpose = Returns JNull /\
     Forall (fun e => is_decipher e = false)
       (decrypt_events P d now value purpose)).
Proof.
  split.
  - intros before event after Hev Hdec.
    unfold decrypt_events, decrypt_run in Hev.
    destruct value as [| | | |s| | |];
      try (now destruct before; discriminate Hev).
    destruct (decrypt_parts_events P d now (Str.split (separator d) s) purpose)
      as [Hnil|(f1 & f2 & enc & ivE & nE & hash & rest & Hparts & Hcases)].
    { rewrite Hnil in Hev. now destruct before. }
    cbn zeta in Hcases.
    destruct Hcases as [[Hc Hrun]|[Hc Hrun]].
    + rewrite Hrun in Hev. cbn [fst] in Hev.
      destruct before as [|b [|b' before]]; try discriminate.
      injection Hev as <- _. discriminate.
    + rewrite Hrun in Hev.
      destruct (decipher_events_shape P d now (Hex.decode enc)
                  (Hex.decode ivE) (Hex.decode nE) purpose)
        as (attempt & later & Hshape & _ & Hlater).
      rewrite Hshape in Hev.
      destruct before as [|b [|b' before]].
      * injection Hev as <- _. discriminate.
      * injection Hev as <- _ _.
        exists s, f1, f2, enc, ivE, nE, hash, rest. repeat split; auto.
      * injection Hev as _ _ Hev'. exfalso.
        rewrite Forall_forall in Hlater.
        assert (Hin : In event later)
          by (rewrite Hev'; apply in_elt).
        apply Hlater in Hin. congruence.
  - intros s f1 f2 enc ivE nE hash rest -> Hsplit Hc.
    unfold decrypt, decrypt_events, decrypt_run. rewrite Hsplit.
    cbn [decrypt_parts].
    destruct (_ || _); [split; [reflexivity|constructor]|].
    destruct (negb (String.eqb f2 algorithm_tag));
      [split; [reflexivity|constructor]|].
    destruct (negb (String.eqb f1 (id d)));
      [split; [reflexivity|constructor]|].
    cbn [negb Str.truthy_object]. rewrite Hc. cbn [negb fst snd].
    split; [reflexivity|]. repeat constructor.
Qed.

Lemma hmac_checked_before_decipher_witness :
  (exists s f1 f2 enc ivE nE hash rest,
     JString "app.aes256gcm.616d.100102030405060708090a0b0c0d0e0f.190c.75"
     = JString s /\
     Str.split (separator Sample.driver) s
     = f1 :: f2 :: enc :: ivE :: nE :: hash :: rest /\
     hmac_compare Sample.platform (cryptoKey Sample.driver)
       (enc ++ String (separator Sample.driver) ivE) hash = true /\
     [HmacCompared "616d.100102030405060708090a0b0c0d0e0f" "75" true]
     = [HmacCompared (enc ++ String (separator Sample.driver) ivE) hash true])
  /\
  (decrypt Sample.platform Sample.driver 5
     (JString "app.aes256gcm.616d.100102030405060708090a0b0c0d0e0f.190c.00")
     None = Returns JNull /\
   Forall (fun e => is_decipher e = false)
     (decrypt_events Sample.platform Sample.driver 5
        (JString "app.aes256gcm.616d.100102030405060708090a0b0c0d0e0f.190c.00")
        None)).
Proof.
  split.
  - apply (proj1 (hmac_checked_before_decipher Sample.platform Sample.driver
                    5
                    (JString
                       "app.aes256gcm.616d.100102030405060708090a0b0c0d0e0f.190c.75")
                    None)
             [HmacCompared "616d.100102030405060708090a0b0c0d0e0f" "75" true]
             (DecipherAttempted Sample.iv1 None [x19; x0c] [x61; x6d])
             [MessageVerified "xt"]).
    + vm_compute. reflexivity.
    + reflexivity.
  - apply (proj2 (hmac_checked_before_decipher Sample.platform Sample.driver
                    5
                    (JString
                       "app.aes256gcm.616d.100102030405060708090a0b0c0d0e0f.190c.00")
                    None)
             "app.aes256gcm.616d.100102030405060708090a0b0c0d0e0f.190c.00"
             "app" "aes256gcm" "616d" "100102030405060708090a0b0c0d0e0f"
             "190c" "00" []).
    + reflexivity.
    + vm_compute. reflexivity.
    + vm_compute. reflexivity.
Defined.

(** * The envelope *)

Section Envelope.

Variable P : Platform.

Lemma sealed_fields_nonempty d iv aad text :
  Utf8Laws P -> AeadLaws P -> FieldsSafe P d ->
  iv <> [] -> Str.falsy text = false ->
  Forall (fun f => Str.falsy f = false) (sealed_fields P d iv aad text).
Proof.
  intros U A S Hiv Htext. unfold sealed_fields.
  repeat constructor.
  - apply (id_nonempty _ _ S).
  - apply HexFacts.encode_nonempty, sealed_ciphertext_nonempty;
      [assumption|now apply utf8_encode_nonempty].
  - now apply HexFacts.encode_nonempty.
  - apply HexFacts.encode_nonempty, (tag_nonempty _ A).
  - apply (mac_nonempty _ _ S).
Qed.

Lemma falsy_app a b : Str.falsy a = false -> Str.falsy (a ++ b) = false.
Proof. destruct a; [discriminate|reflexivity]. Qed.

(** A string accepted by [decrypt] starts with six non-empty fields:
    the id, the algorithm tag and four more. *)
Lemma decrypt_accepts_only d now value purpose v :
  decrypt P d now value purpose = Returns v -> v <> JNull ->
  exists s enc ivE nE hash rest,
    value = JString s /\
    Str.split (separator d) s
    = id d :: algorithm_tag :: enc :: ivE :: nE :: hash :: rest /\
    Forall (fun f => Str.falsy f = false)
      [id d; algorithm_tag; enc; ivE; nE; hash].
Proof.
  unfold decrypt, decrypt_run. intros Hdec Hv.
  destruct value as [| | | |s| | |];
    try (cbn in Hdec; injection Hdec as <-; now destruct Hv).
  apply decrypt_parts_inv in Hdec
    as (enc & ivE & nE & hash & rest & Hparts & H1 & H3 & H4 & H5 & H6 & _);
    [|assumption].
  exists s, enc, ivE, nE, hash, rest.
  split; [reflexivity|]. split; [assumption|].
  repeat constructor; assumption.
Qed.

End Envelope.

(** C7, as the code has it: for every successful [encrypt] call, on a
    driver whose fields are free of the separator, the returned string
    splits on the separator into exactly six non-empty fields, in order:
    the configured id, the tag "aes256gcm", the hex of the ciphertext, of
    the IV and of the auth tag, and the MAC.  [decrypt] accepts only
    strings that start with six non-empty fields, the id and the tag
    first; it does not require that there are exactly six. *)
Theorem envelope_wire_format
    (P : Platform) (d : Driver) (now : Z) (iv : bytes) (payload : JsValue)
    (expiresIn : option Expiry) (purpose : option string) (text : string) :
  Utf8Laws P -> AeadLaws P -> FieldsSafe P d ->
  List.length iv = 16%nat ->
  mb_build P now payload expiresIn = Returns text ->
  Str.falsy text = false ->
  (exists envelope,
     encrypt P d now iv payload expiresIn purpose = Returns envelope /\
     Str.split (separator d) envelope
     = sealed_fields P d iv (purpose_aad P purpose) text /\
     List.length (Str.split (separator d) envelope) = 6%nat /\
     Forall (fun f => Str.falsy f = false)
       (Str.split (separator d) envelope)) /\
  (forall now' value purpose' v,
     decrypt P d now' value purpose' = Returns v -> v <> JNull ->
     exists s enc ivE nE hash rest,
       value = JString s /\
       Str.split (separator d) s
       = id d :: algorithm_tag :: enc :: ivE :: nE :: hash :: rest /\
       Forall (fun f => Str.falsy f = false)
         [id d; algorithm_tag; enc; ivE; nE; hash]).
Proof.
  intros U A S Hiv Hbuild Htext. split.
  - eexists. split; [rewrite encrypt_unfold, Hbuild; reflexivity|].
    rewrite split_sealed by assumption.
    split; [reflexivity|]. split; [reflexivity|].
    apply sealed_fields_nonempty;
      auto using sixteen_bytes_nonempty.
  - intros now' value purpose' v. apply decrypt_accepts_only.
Qed.

Lemma envelope_wire_format_witness :
  exists envelope,
    encrypt Sample.platform Sample.driver 0 Sample.iv1 (JBool true) None None
    = Returns envelope /\
    Str.split (separator Sample.driver) envelope
    = sealed_fields Sample.platform Sample.driver Sample.iv1
        (purpose_aad Sample.platform None) "xt" /\
    List.length (Str.split (separator Sample.driver) envelope) = 6%nat /\
    Forall (fun f => Str.falsy f = false)
      (Str.split (separator Sample.driver) envelope).
Proof.
  apply (envelope_wire_format Sample.platform Sample.driver 0 Sample.iv1
           (JBool true) None None "xt").
  - exact SampleFacts.utf8_laws.
  - exact SampleFacts.aead_laws.
  - exact SampleFacts.fields_safe.
  - reflexivity.
  - reflexivity.
  - reflexivity.
Defined.

(** C7 as stated fails on its last part: a string of eight fields, an
    envelope followed by two more fields, is accepted by [decrypt]. *)
Lemma more_than_six_fields_accepted :
  exists envelope,
    encrypt Sample.platform Sample.driver 0 Sample.iv1 Sample.payload None
      None = Returns envelope /\
    List.length (Str.split "." (envelope ++ ".two.more")) = 8%nat /\
    decrypt Sample.platform Sample.driver 5
      (JString (envelope ++ ".two.more")) None = Returns Sample.payload /\
    Sample.payload <> JNull.
Proof.
  eexists. split; [reflexivity|].
  split; [vm_compute; reflexivity|].
  split; [vm_compute; reflexivity|discriminate].
Qed.

(** * Fresh IVs *)




(** * Hex fields that are not hex *)

(** C4, on the code: the hex step of [decrypt] rejects nothing.  An
    envelope whose auth-tag field is the sealed tag followed by text that
    is not hex passes the step, passes the MAC check (which does not cover
    that field) and decrypts to the payload; and every string that passes
    the id check reaches the MAC comparison, whatever its three hex fields
    hold. *)
Theorem non_hex_field_is_not_rejected
    (P : Platform) (d : Driver) (now now' : Z) (iv : bytes)
    (payload : JsValue) (text junk : string) :
  Utf8Laws P -> AeadLaws P -> FieldsSafe P d ->
  List.length iv = 16%nat ->
  mb_build P now payload None = Returns text ->
  Str.falsy text = false ->
  mb_verify P now' text = Returns payload ->
  Hex.well_formed junk = false ->
  Hex.decode junk = [] ->
  Str.contains (separator d) junk = false ->
  let tampered :=
    Str.join (separator d)
      (sealed_fields_with_tag_suffix P d iv None text junk) in
  (exists tagHex,
     envelope_field d tampered 4 = Some tagHex /\
     Hex.well_formed tagHex = false) /\
  decrypt P d now' (JString tampered) None = Returns payload /\
  (forall s enc ivE nE hash rest purpose,
     Str.split (separator d) s
     = id d :: algorithm_tag :: enc :: ivE :: nE :: hash :: rest ->
     Forall (fun f => Str.falsy f = false) [enc; ivE; nE; hash] ->
     exists valid later,
       decrypt_events P d now' (JString s) purpose
       = HmacCompared (enc ++ String (separator d) ivE) hash valid :: later).
Proof.
  intros U A S Hiv Hbuild Htext Hverify Hjunk Hdecode Hfree tampered.
  pose proof (sixteen_bytes_nonempty iv Hiv) as Hiv'.
  pose proof (sealed_fields_free P d iv None text S) as Hsafe.
  pose proof (sealed_fields_nonempty P d iv None text U A S Hiv' Htext)
    as Hne.
  pose proof (decipher_sealed P d now' iv None text U A) as Hrun.
  unfold sealed_fields_with_tag_suffix, sealed_fields in *.
  cbn zeta in *. change (purpose_aad P None) with (@None bytes) in Hrun.
  set (sealed := aead_seal P (cryptoKey d) iv None (utf8_encode P text)) in *.
  set (message :=
         Hex.encode (fst sealed) ++ String (separator d) (Hex.encode iv)) in *.
  repeat match goal with
         | H : Forall _ (_ :: _) |- _ => inversion_clear H
         end.
  assert (Hsplit :
            Str.split (separator d) tampered
            = [id d; algorithm_tag; Hex.encode (fst sealed); Hex.encode iv;
               Hex.encode (snd sealed) ++ junk;
               hmac_generate P (cryptoKey d) message]).
  { apply StrFacts.split_join; [discriminate|].
    repeat constructor; try assumption.
    rewrite StrFacts.contains_app. apply orb_false_iff. now split. }
  split; [|split].
  - exists (Hex.encode (snd sealed) ++ junk). split.
    + unfold envelope_field. now rewrite Hsplit.
    + now apply HexFacts.encode_then_junk_ill_formed.
  - unfold decrypt, decrypt_run. rewrite Hsplit.
    rewrite decrypt_parts_accepted; auto using falsy_app.
    fold message. unfold hmac_compare. rewrite String.eqb_refl. cbn [snd].
    rewrite HexFacts.decode_encode_app, Hdecode, app_nil_r.
    rewrite !HexFacts.decode_encode, Hrun, Hverify. reflexivity.
  - intros s enc ivE nE hash rest purpose Hs Hall.
    repeat match goal with
           | H : Forall _ (_ :: _) |- _ => inversion_clear H
           end.
    unfold decrypt_events, decrypt_run. rewrite Hs.
    rewrite decrypt_parts_accepted by assumption.
    destruct (hmac_compare _ _ _ _); eexists; eexists; reflexivity.
Qed.

Lemma non_hex_field_is_not_rejected_witness :
  (exists tagHex,
     envelope_field Sample.driver
       "app.aes256gcm.616d.100102030405060708090a0b0c0d0e0f.190czz.75" 4
     = Some tagHex /\
     Hex.well_formed tagHex = false) /\
  decrypt Sample.platform Sample.driver 5
    (JString "app.aes256gcm.616d.100102030405060708090a0b0c0d0e0f.190czz.75")
    None = Returns (JBool true).
Proof.
  pose proof (non_hex_field_is_not_rejected Sample.platform Sample.driver
                0 5 Sample.iv1 (JBool true) "xt" "zz"
                SampleFacts.utf8_laws SampleFacts.aead_laws
                SampleFacts.fields_safe eq_refl eq_refl eq_refl eq_refl
                eq_refl eq_refl eq_refl) as (Hfield & Hdec & _).
  split; [exact Hfield|exact Hdec].
Defined.


(** * Further properties of [decrypt] *)

(** A value other than [null] comes out of [decrypt] exactly when the
    string starts with the driver's id, the algorithm tag and four more
    non-empty fields, the sixth is the MAC of the third and fourth joined,
    the decipher succeeds on the decoded fields under the purpose, and the
    codec returns the value for the plaintext. *)
Theorem decrypt_accepts_exactly
    (P : Platform) (d : Driver) (now : Z) (s : string)
    (purpose : option string) (v : JsValue) :
  (decrypt P d now (JString s) purpose = Returns v /\ v <> JNull)
  <->
  (exists enc ivE nE hash rest plain,
     Str.split (separator d) s
     = id d :: algorithm_tag :: enc :: ivE :: nE :: hash :: rest /\
     Forall (fun f => Str.falsy f = false) [id d; enc; ivE; nE; hash] /\
     hash = hmac_generate P (cryptoKey d) (enc ++ String (separator d) ivE) /\
     aead_open P (cryptoKey d) (Hex.decode ivE) (purpose_aad P purpose)
       (Hex.decode nE) (Hex.decode enc) = Returns plain /\
     mb_verify P now (utf8_decode P plain) = Returns v /\
     v <> JNull).
Proof.
  unfold decrypt, decrypt_run. split.
  - intros [Hdec Hv].
    apply decrypt_parts_inv in Hdec
      as (enc & ivE & nE & hash & rest & Hparts & H1 & H3 & H4 & H5 & H6
          & Hmac & Hrun); [|assumption].
    unfold decipher_and_verify in Hrun.
    destruct (aead_open _ _ _ _ _ _) as [plain|] eqn:Hopen;
      [|discriminate].
    exists enc, ivE, nE, hash, rest, plain.
    repeat split; try assumption. repeat constructor; assumption.
  - intros (enc & ivE & nE & hash & rest & plain & Hsplit & Hall & Hmac
            & Hopen & Hverify & Hv).
    repeat match goal with
           | H : Forall _ (_ :: _) |- _ => inversion_clear H
           end.
    split; [|assumption].
    rewrite Hsplit, decrypt_parts_accepted by assumption.
    unfold hmac_compare. rewrite <- Hmac, String.eqb_refl. cbn [snd].
    unfold decipher_and_verify. rewrite Hopen. cbn [snd].
    rewrite Hverify. reflexivity.
Qed.

Lemma decrypt_accepts_exactly_witness :
  decrypt Sample.platform Sample.driver 5
    (JString "app.aes256gcm.616d.100102030405060708090a0b0c0d0e0f.190c.75")
    None = Returns (JBool true) /\
  JBool true <> JNull.
Proof.
  apply (proj2 (decrypt_accepts_exactly Sample.platform Sample.driver 5
                  "app.aes256gcm.616d.100102030405060708090a0b0c0d0e0f.190c.75"
                  None (JBool true))).
  exists "616d", "100102030405060708090a0b0c0d0e0f", "190c", "75", [],
    [x78; x74].
  split; [vm_compute; reflexivity|].
  split; [repeat constructor|].
  split; [vm_compute; reflexivity|].
  split; [vm_compute; reflexivity|].
  split; [vm_compute; reflexivity|discriminate].
Defined.

(** A driver decrypts something only if its id is non-empty and holds no
    separator, and the separator does not occur in the algorithm tag:
    with any other id or separator every [decrypt] returns [null], also
    for the driver's own envelopes. *)
Theorem decrypting_driver_has_usable_id
    (P : Platform) (d : Driver) (now : Z) (value : JsValue)
    (purpose : option string) (v : JsValue) :
  decrypt P d now value purpose = Returns v ->
  v <> JNull ->
  Str.falsy (id d) = false /\
  Str.contains (separator d) (id d) = false /\
  Str.contains (separator d) algorithm_tag = false.
Proof.
  intros Hdec Hv.
  destruct (decrypt_accepts_only P d now value purpose v Hdec Hv)
    as (s & enc & ivE & nE & hash & rest & _ & Hsplit & Hall).
  inversion_clear Hall.
  split; [assumption|].
  split; apply (StrFacts.split_parts_free (separator d) s);
    rewrite Hsplit; simpl; auto.
Qed.

Lemma decrypting_driver_has_usable_id_witness :
  Str.falsy (id Sample.driver) = false /\
  Str.contains (separator Sample.driver) (id Sample.driver) = false /\
  Str.contains (separator Sample.driver) algorithm_tag = false.
Proof.
  apply (decrypting_driver_has_usable_id Sample.platform Sample.driver 5
           (JString
              "app.aes256gcm.616d.100102030405060708090a0b0c0d0e0f.190c.75")
           None (JBool true)).
  - vm_compute. reflexivity.
  - discriminate.
Defined.

(** An envelope made by a driver whose id holds no separator is rejected
    by every driver with another id and the same separator, whatever the
    keys and the purposes. *)
Theorem foreign_id_rejected
    (P : Platform) (d1 d2 : Driver) (now now' : Z) (iv : bytes)
    (payload : JsValue) (expiresIn : option Expiry)
    (purpose purpose' : option string) (envelope : string) :
  separator d1 = separator d2 ->
  Str.contains (separator d1) (id d1) = false ->
  id d1 <> id d2 ->
  encrypt P d1 now iv payload expiresIn purpose = Returns envelope ->
  decrypt P d2 now' (JString envelope) purpose' = Returns JNull.
Proof.
  intros Hsep Hfree Hid Henc.
  rewrite encrypt_unfold in Henc.
  destruct (mb_build P now payload expiresIn) as [text|]; [|discriminate].
  assert (E : envelope
              = Str.join (separator d1)
                  (sealed_fields P d1 iv (purpose_aad P purpose) text))
    by (injection Henc as <-; reflexivity).
  subst envelope. clear Henc.
  unfold decrypt, decrypt_run. rewrite <- Hsep.
  rewrite split_join_parts by discriminate.
  unfold sealed_fields. cbn [map List.concat].
  rewrite (StrFacts.split_free _ _ Hfree). cbn [app].
  match goal with
  | |- snd (decrypt_parts _ _ _ ?parts _) = _ =>
      destruct (decrypt_parts_returns P d2 now' parts purpose') as [v Hv];
      rewrite Hv; destruct (null_or_not v) as [->|Hnn]; [reflexivity|];
      apply decrypt_parts_inv in Hv as (? & ? & ? & ? & ? & Hparts & _);
      [|assumption]
  end.
  injection Hparts as Hhead _. now destruct Hid.
Qed.

Lemma foreign_id_rejected_witness :
  decrypt Sample.platform
    {| id := "other"; cryptoKey := cryptoKey Sample.driver;
       separator := "." |}
    5
    (JString "app.aes256gcm.616d.100102030405060708090a0b0c0d0e0f.190c.75")
    None = Returns JNull.
Proof.
  apply (foreign_id_rejected Sample.platform Sample.driver
           {| id := "other"; cryptoKey := cryptoKey Sample.driver;
              separator := "." |}
           0 5 Sample.iv1 (JBool true) None None None).
  - reflexivity.
  - reflexivity.
  - discriminate.
  - vm_compute. reflexivity.
Defined.

(** The codec is run on nothing but authenticated plaintext: whenever
    [MessageBuilder.verify] is called in [decrypt], the MAC was valid and
    the decipher returned, without throwing, the very bytes whose text is
    verified. *)
Theorem codec_sees_only_authenticated_plaintext
    (P : Platform) (d : Driver) (now : Z) (value : JsValue)
    (purpose : option string) (decrypted : string) :
  In (MessageVerified decrypted) (decrypt_events P d now value purpose) ->
  exists s f1 f2 enc ivE nE hash rest plain,
    value = JString s /\
    Str.split (separator d) s
    = f1 :: f2 :: enc :: ivE :: nE :: hash :: rest /\
    hmac_compare P (cryptoKey d) (enc ++ String (separator d) ivE) hash
    = true /\
    aead_open P (cryptoKey d) (Hex.decode ivE) (purpose_aad P purpose)
      (Hex.decode nE) (Hex.decode enc) = Returns plain /\
    decrypted = utf8_decode P plain.
Proof.
  unfold decrypt_events, decrypt_run. intros Hin.
  destruct value as [| | | |s| | |]; try contradiction.
  destruct (decrypt_parts_events P d now (Str.split (separator d) s) purpose)
    as [Hnil|(f1 & f2 & enc & ivE & nE & hash & rest & Hparts & Hcases)].
  { rewrite Hnil in Hin. contradiction. }
  cbn zeta in Hcases. destruct Hcases as [[Hc Hrun]|[Hc Hrun]].
  - rewrite Hrun in Hin. cbn in Hin. destruct Hin as [Hin|[]]. discriminate.
  - rewrite Hrun in Hin. unfold decipher_and_verify in Hin.
    destruct (aead_open _ _ _ _ _ _) as [plain|] eqn:Hopen; cbn in Hin.
    + destruct Hin as [Hin|[Hin|[Hin|[]]]]; try discriminate.
      injection Hin as <-.
      exists s, f1, f2, enc, ivE, nE, hash, rest, plain.
      repeat split; assumption.
    + destruct Hin as [Hin|[Hin|[]]]; discriminate.
Qed.

Lemma codec_sees_only_authenticated_plaintext_witness :
  exists s f1 f2 enc ivE nE hash rest plain,
    JString "app.aes256gcm.616d.100102030405060708090a0b0c0d0e0f.190c.75"
    = JString s /\
    Str.split (separator Sample.driver) s
    = f1 :: f2 :: enc :: ivE :: nE :: hash :: rest /\
    hmac_compare Sample.platform (cryptoKey Sample.driver)
      (enc ++ String (separator Sample.driver) ivE) hash = true /\
    aead_open Sample.platform (cryptoKey Sample.driver) (Hex.decode ivE)
      (purpose_aad Sample.platform None) (Hex.decode nE) (Hex.decode enc)
    = Returns plain /\
    "xt" = utf8_decode Sample.platform plain.
Proof.
  apply (codec_sees_only_authenticated_plaintext Sample.platform
           Sample.driver 5
           (JString
              "app.aes256gcm.616d.100102030405060708090a0b0c0d0e0f.190c.75")
           None "xt").
  vm_compute. right. right. left. reflexivity.
Defined.

(** * Further properties of [encrypt] followed by [decrypt] *)



(** With the IV and the purpose fixed, two different payloads that the
    codec round-trips get different envelopes. *)
Theorem distinct_payloads_distinct_envelopes
    (P : Platform) (d : Driver) (now now' : Z) (iv : bytes)
    (payload1 payload2 : JsValue) (purpose : option string)
    (envelope1 envelope2 : string) :
  Utf8Laws P -> AeadLaws P -> FieldsSafe P d ->
  List.length iv = 16%nat ->
  codec_round_trips P now now' payload1 ->
  codec_round_trips P now now' payload2 ->
  payload1 <> payload2 ->
  encrypt P d now iv payload1 None purpose = Returns envelope1 ->
  encrypt P d now iv payload2 None purpose = Returns envelope2 ->
  envelope1 <> envelope2.
Proof.
  intros U A S Hiv H1 H2 Hne E1 E2 Heq.
  apply sixteen_bytes_nonempty in Hiv.
  destruct (round_trip_under_purpose P d now now' iv payload1 purpose
              U A S Hiv H1) as (e1 & He1 & Hd1).
  destruct (round_trip_under_purpose P d now now' iv payload2 purpose
              U A S Hiv H2) as (e2 & He2 & Hd2).
  assert (e1 = envelope1) by congruence.
  assert (e2 = envelope2) by congruence.
  subst e1 e2 envelope2. apply Hne. congruence.
Qed.

Lemma distinct_payloads_distinct_envelopes_witness :
  "app.aes256gcm.616d.100102030405060708090a0b0c0d0e0f.190c696e76697465.75"
  <> "app.aes256gcm.616a322929226f706b72.100102030405060708090a0b0c0d0e0f.191d696e76697465.77".
Proof.
  apply (distinct_payloads_distinct_envelopes Sample.platform Sample.driver
           0 5 Sample.iv1 (JBool true) (JString "virk") (Some "invite")).
  - exact SampleFacts.utf8_laws.
  - exact SampleFacts.aead_laws.
  - exact SampleFacts.fields_safe.
  - reflexivity.
  - eexists. vm_compute. repeat split.
  - eexists. vm_compute. repeat split.
  - discriminate.
  - vm_compute. reflexivity.
  - vm_compute. reflexivity.
Defined.



(** [decrypt] reads the auth-tag field only through its hex decoding:
    two strings that agree on the first four fields and on the sixth, and
    whose fifth fields are non-empty and decode to the same bytes, get the
    same result and cause the same events.  So an envelope stays valid
    when its auth-tag field is written in another case or followed by
    text that is not hex. *)
Theorem auth_tag_read_through_decoding
    (P : Platform) (d : Driver) (now : Z) (s s' : string)
    (purpose : option string)
    (f1 f2 enc ivE nE nE' hash : string) (rest rest' : list string) :
  Str.split (separator d) s = f1 :: f2 :: enc :: ivE :: nE :: hash :: rest ->
  Str.split (separator d) s'
  = f1 :: f2 :: enc :: ivE :: nE' :: hash :: rest' ->
  Str.falsy nE = false -> Str.falsy nE' = false ->
  Hex.decode nE = Hex.decode nE' ->
  decrypt_run P d now (JString s) purpose
  = decrypt_run P d now (JString s') purpose.
Proof.
  intros Hs Hs' Hn Hn' Hdecode.
  unfold decrypt_run. rewrite Hs, Hs'. cbn [decrypt_parts].
  rewrite Hn, Hn', Hdecode. reflexivity.
Qed.

Lemma auth_tag_read_through_decoding_witness :
  decrypt_run Sample.platform Sample.driver 5
    (JString "app.aes256gcm.616d.100102030405060708090a0b0c0d0e0f.190c.75")
    None
  = decrypt_run Sample.platform Sample.driver 5
      (JString "app.aes256gcm.616d.100102030405060708090a0b0c0d0e0f.190C.75")
      None.
Proof.
  apply (auth_tag_read_through_decoding Sample.platform Sample.driver 5
           "app.aes256gcm.616d.100102030405060708090a0b0c0d0e0f.190c.75"
           "app.aes256gcm.616d.100102030405060708090a0b0c0d0e0f.190C.75"
           None "app" "aes256gcm" "616d" "100102030405060708090a0b0c0d0e0f"
           "190c" "190C" "75" [] []).
  - vm_compute. reflexivity.
  - vm_compute. reflexivity.
  - reflexivity.
  - reflexivity.
  - vm_compute. reflexivity.
Defined.

(** * The size of an envelope *)

Lemma length_append (a b : string) :
  String.length (a ++ b) = (String.length a + String.length b)%nat.
Proof. induction a as [|x a IH]; simpl; [reflexivity|now rewrite IH]. Qed.

Lemma hex_encode_length (b : bytes) :
  String.length (Hex.encode b) = (2 * List.length b)%nat.
Proof. induction b as [|x b IH]; simpl in *; [reflexivity|lia]. Qed.

(** The envelope is as long as the id, the algorithm tag and the MAC,
    twice the encoded payload, the IV and the auth tag, and five
    separators: hex doubles what it carries, and GCM adds nothing to the
    length of the plaintext. *)
Theorem envelope_length
    (P : Platform) (d : Driver) (now : Z) (iv : bytes) (payload : JsValue)
    (expiresIn : option Expiry) (purpose : option string)
    (envelope : string) :
  AeadLaws P ->
  encrypt P d now iv payload expiresIn purpose = Returns envelope ->
  exists text,
    mb_build P now payload expiresIn = Returns text /\
    let sealed :=
      aead_seal P (cryptoKey d) iv (purpose_aad P purpose)
        (utf8_encode P text) in
    String.length envelope
    = (String.length (id d) + String.length algorithm_tag
       + 2 * List.length (utf8_encode P text)
       + 2 * List.length iv
       + 2 * List.length (snd sealed)
       + String.length
           (hmac_generate P (cryptoKey d)
              (Hex.encode (fst sealed)
               ++ String (separator d) (Hex.encode iv)))
       + 5)%nat.
Proof.
  intros A Henc. rewrite encrypt_unfold in Henc.
  destruct (mb_build P now payload expiresIn) as [text|]; [|discriminate].
  exists text. split; [reflexivity|]. cbn zeta.
  assert (E : envelope
              = Str.join (separator d)
                  (sealed_fields P d iv (purpose_aad P purpose) text))
    by (injection Henc as <-; reflexivity).
  subst envelope. clear Henc.
  unfold sealed_fields. cbn [Str.join].
  repeat (rewrite length_append; cbn [String.length]).
  rewrite !hex_encode_length, (seal_length _ A). lia.
Qed.

Lemma envelope_length_witness :
  exists text,
    mb_build Sample.platform 0 (JBool true) None = Returns text /\
    let sealed :=
      aead_seal Sample.platform (cryptoKey Sample.driver) Sample.iv1
        (purpose_aad Sample.platform None)
        (utf8_encode Sample.platform text) in
    String.length
      "app.aes256gcm.616d.100102030405060708090a0b0c0d0e0f.190c.75"
    = (String.length (id Sample.driver) + String.length algorithm_tag
       + 2 * List.length (utf8_encode Sample.platform text)
       + 2 * List.length Sample.iv1
       + 2 * List.length (snd sealed)
       + String.length
           (hmac_generate Sample.platform (cryptoKey Sample.driver)
              (Hex.encode (fst sealed)
               ++ String (separator Sample.driver)
                    (Hex.encode Sample.iv1)))
       + 5)%nat.
Proof.
  apply (envelope_length Sample.platform Sample.driver 0 Sample.iv1
           (JBool true) None None).
  - exact SampleFacts.aead_laws.
  - vm_compute. reflexivity.
Defined.
